(** * The alert component: repeating alerts while a watched condition holds

    A verification development for
    [homeassistant/components/alert/__init__.py] and [const.py].

    The Python class [Alert] is embedded as a record with the fields the
    class assigns in [__init__]; its [async def] methods are computations in
    a state-and-exception monad over the pair (alert object, host).  The
    host ([hass]) carries the clock read by [now()], the registry of
    point-in-time listeners and a trace of the externally visible effects
    (scripts run, states written). *)

From Stdlib Require Import ZArith List String Bool Lia.
From stdpp Require Import base option list gmap strings.

Local Open Scope string_scope.
Local Open Scope list_scope.
Local Open Scope Z_scope.

(** ** Python values used by the component *)

(** The exceptions the component can raise. *)
Inductive exn : Type :=
| TypeError
| IndexError
| OverflowError
| ValueError
| AttributeError.

(** Outcome of running a piece of Python code: a value or a raised
    exception. *)
Inductive res (A : Type) : Type :=
| Val (a : A)
| Raise (e : exn).
Arguments Val {A} a.
Arguments Raise {A} e.

(** [datetime] and [timedelta] values, both counted in microseconds (the
    resolution of Python's [datetime] module).  A [datetime] counts from
    0001-01-01 00:00, the smallest value of the type. *)
Definition datetime := Z.
Definition timedelta := Z.

Definition us_per_minute : Z := 60000000.
Definition us_per_day : Z := 86400000000.

(** One microsecond past 9999-12-31 23:59:59.999999, the largest
    [datetime]: day 3652059 is the last one. *)
Definition datetime_max : Z := 3652059 * us_per_day.

(** [t + delta] on a [datetime]: raises [OverflowError] when the result
    leaves the years 1 to 9999. *)
Definition datetime_add (t : datetime) (delta : timedelta) : res datetime :=
  if (0 <=? t + delta) && (t + delta <? datetime_max) then Val (t + delta)
  else Raise OverflowError.

(** The floats the schema hands over ([vol.Coerce(float)] accepts every
    float, also infinities and NaN).  A finite float is identified with the
    number of microseconds that [timedelta(minutes=val)] rounds it to; the
    rounding itself is floating-point arithmetic and stays outside the
    embedding. *)
Inductive pyfloat : Type :=
| Finite (microseconds : Z)
| Infinity (negative : bool)
| NaN.

(** A whole number of minutes as a float. *)
Definition whole_minutes (m : Z) : pyfloat := Finite (m * us_per_minute).

(** [timedelta(minutes=val)]: an infinity cannot be converted
    ([OverflowError]), nor can NaN ([ValueError]), and a result of more
    than 999999999 days in either direction raises [OverflowError]. *)
Definition timedelta_minutes (val : pyfloat) : res timedelta :=
  match val with
  | Finite us =>
      if (-999999999 <=? us / us_per_day) && (us / us_per_day <=? 999999999)
      then Val us
      else Raise OverflowError
  | Infinity _ => Raise OverflowError
  | NaN => Raise ValueError
  end.

(** [lst[i]] on a Python list with an [int] index: negative indices count
    from the end, anything out of range raises [IndexError]. *)
Definition py_getitem {A} (lst : list A) (i : Z) : res A :=
  let n := Z.of_nat (length lst) in
  let j := if i <? 0 then i + n else i in
  if (j <? 0) || (n <=? j) then Raise IndexError
  else match lst !! Z.to_nat j with
       | Some x => Val x
       | None => Raise IndexError
       end.

(** ** Constants: [const.py] *)

Definition DOMAIN : string := "alert".
Definition ENTITY_ID_FORMAT (object_id : string) : string :=
  DOMAIN +:+ "." +:+ object_id.

Definition CONF_CAN_ACK : string := "can_acknowledge".
Definition CONF_REPEAT : string := "repeat".
Definition CONF_SKIP_FIRST : string := "skip_first".
Definition CONF_TRIGGERED : string := "triggered".
Definition CONF_DONE : string := "done".

Definition DEFAULT_CAN_ACK : bool := true.
Definition DEFAULT_SKIP_FIRST : bool := false.

(** Modelled from the spec: the three entity states imported from
    [homeassistant.const], which is not part of the component.  The
    specification calls them "firing" ([STATE_ON]), "silenced"
    ([STATE_OFF]) and "idle" ([STATE_IDLE]). *)
Inductive ha_state : Type :=
| STATE_ON
| STATE_OFF
| STATE_IDLE.

(** The three services of the entity control surface. *)
Inductive service_name : Type :=
| SERVICE_TURN_ON
| SERVICE_TURN_OFF
| SERVICE_TOGGLE.

(** ** Scripts and the host *)

(** Modelled from the spec: [Script(hass, sequence)] of
    [homeassistant.helpers.script], an "opaque invocable action handle".
    The script object wraps the configured action sequence, which is absent
    ([None]) when the key is not configured. *)
Record Script : Type := mkScript { sequence : option nat }.

(** The [Context] object of a service call, opaque to the component. *)
Definition Context := nat.

(** Handles of point-in-time listeners: the cancel function returned by
    [event.async_track_point_in_time] is identified with the listener it
    removes. *)
Definition handle := nat.

(** Externally visible effects, in the order they happen. *)
Inductive effect : Type :=
| ScriptRun (s : Script) (context : option Context)
                                      (* script.async_run(context=...) ran *)
| NeverAwaited (coro : string)        (* coroutine built, never awaited *)
| StateWritten (st : ha_state)        (* async_update_ha_state wrote the state *)
| StateWriteScheduled                 (* async_schedule_update_ha_state *)
| StateChangeTracked (watched : string)
| ServiceRegistered (svc : service_name).

Record Hass : Type := mkHass {
  clock : datetime;                   (* what now() returns *)
  listeners : gmap handle datetime;   (* pending point-in-time listeners *)
  next_handle : handle;
  trace : list effect
}.

(** ** The [Alert] object *)

Record Alert : Type := mkAlert {
  _name : string;
  _alert_state : string;
  _skip_first : bool;
  _can_ack : bool;
  _triggered_script : Script;
  _done_script : Script;
  _delay : list timedelta;
  _next_delay : Z;
  _triggered : bool;
  _ack : bool;
  _cancel : option handle;
  _execute_done_script : bool;
  entity_id : string;
  _context : option Context           (* attribute of the base class *)
}.

(** Assignments to the attributes that change after [__init__]. *)
Definition set_next_delay (v : Z) (a : Alert) : Alert :=
  mkAlert (_name a) (_alert_state a) (_skip_first a) (_can_ack a)
    (_triggered_script a) (_done_script a) (_delay a)
    v (_triggered a) (_ack a) (_cancel a) (_execute_done_script a)
    (entity_id a) (_context a).

Definition set_triggered (v : bool) (a : Alert) : Alert :=
  mkAlert (_name a) (_alert_state a) (_skip_first a) (_can_ack a)
    (_triggered_script a) (_done_script a) (_delay a)
    (_next_delay a) v (_ack a) (_cancel a) (_execute_done_script a)
    (entity_id a) (_context a).

Definition set_ack (v : bool) (a : Alert) : Alert :=
  mkAlert (_name a) (_alert_state a) (_skip_first a) (_can_ack a)
    (_triggered_script a) (_done_script a) (_delay a)
    (_next_delay a) (_triggered a) v (_cancel a) (_execute_done_script a)
    (entity_id a) (_context a).

Definition set_cancel (v : option handle) (a : Alert) : Alert :=
  mkAlert (_name a) (_alert_state a) (_skip_first a) (_can_ack a)
    (_triggered_script a) (_done_script a) (_delay a)
    (_next_delay a) (_triggered a) (_ack a) v (_execute_done_script a)
    (entity_id a) (_context a).

Definition set_execute_done_script (v : bool) (a : Alert) : Alert :=
  mkAlert (_name a) (_alert_state a) (_skip_first a) (_can_ack a)
    (_triggered_script a) (_done_script a) (_delay a)
    (_next_delay a) (_triggered a) (_ack a) (_cancel a) v
    (entity_id a) (_context a).

(** Modelled from the spec: [Entity.async_set_context] of the base class
    stores the context of the service call, the "contextInfo" a script is
    later run with. *)
Definition async_set_context (context : Context) (a : Alert) : Alert :=
  mkAlert (_name a) (_alert_state a) (_skip_first a) (_can_ack a)
    (_triggered_script a) (_done_script a) (_delay a)
    (_next_delay a) (_triggered a) (_ack a) (_cancel a)
    (_execute_done_script a) (entity_id a) (Some context).

(** Host updates. *)
Definition log_effect (e : effect) (h : Hass) : Hass :=
  mkHass (clock h) (listeners h) (next_handle h) (trace h ++ [e]).

Definition set_clock (t : datetime) (h : Hass) : Hass :=
  mkHass t (listeners h) (next_handle h) (trace h).

Definition add_listener (at_time : datetime) (h : Hass) : Hass :=
  mkHass (clock h) (<[next_handle h := at_time]> (listeners h))
    (S (next_handle h)) (trace h).

Definition remove_listener (k : handle) (h : Hass) : Hass :=
  mkHass (clock h) (delete k (listeners h)) (next_handle h) (trace h).

(** ** The monad of Python code: state that survives a raised exception *)

Definition M (St A : Type) : Type := St -> res A * St.

Definition ret {St A} (a : A) : M St A := fun s => (Val a, s).

Definition bind {St A B} (c : M St A) (k : A -> M St B) : M St B :=
  fun s =>
    match c s with
    | (Val a, s') => k a s'
    | (Raise e, s') => (Raise e, s')
    end.

Definition raise {St A} (e : exn) : M St A := fun s => (Raise e, s).

Definition gets {St A} (f : St -> A) : M St A := fun s => (Val (f s), s).

Definition modify {St} (f : St -> St) : M St unit := fun s => (Val tt, f s).

(** A possibly failing pure expression, evaluated in place. *)
Definition eval {St A} (r : res A) : M St A := fun s => (r, s).

(** [await c] runs the coroutine [c] to completion and binds its result;
    plain statements are sequenced the same way. *)
Notation "x <- c1 ;; c2" := (bind c1 (fun x => c2))
  (at level 100, c1 at next level, right associativity).
Notation "c1 ;; c2" := (bind c1 (fun _ => c2))
  (at level 100, right associativity).
Notation "'await' c" := c (at level 10, c at level 9, only parsing).

(** An [async def] function that is called without [await]: Python builds
    the coroutine object and returns it; since nothing awaits or schedules
    it, its body never runs, and the interpreter reports
    "coroutine ... was never awaited" when the object is dropped. *)
Definition call_without_await {A B} (name : string)
    (coro : M (A * Hass) B) : M (A * Hass) unit :=
  modify (fun s => (fst s, log_effect (NeverAwaited name) (snd s))).

(** The state of a running alert: the object and its host. *)
Abbreviation sys := (Alert * Hass)%type.

Definition self_ {A} (f : Alert -> A) : M sys A :=
  gets (fun s => f (fst s)).

Definition assign (f : Alert -> Alert) : M sys unit :=
  modify (fun s => (f (fst s), snd s)).

Definition host (f : Hass -> Hass) : M sys unit :=
  modify (fun s => (fst s, f (snd s))).

(** ** Collaborators reached through the host *)

(** Modelled from the spec: [homeassistant.util.dt.now()], the wall clock
    of the host. *)
Definition now : M sys datetime := gets (fun s => clock (snd s)).

(** Modelled from the spec: the timer service behind
    [event.async_track_point_in_time] (module [homeassistant.helpers.event]
    is not part of the component).  "core calls scheduleAt(timestamp,
    callback) -> cancellableHandle and cancel(handle); guarantees callback
    fires at/after the given wall-clock timestamp, exactly once, unless
    cancelled first."  The only callback the component ever registers is its
    own [_trigger], so a listener is recorded by its due time alone. *)
Definition async_track_point_in_time (point_in_time : datetime)
    : M sys handle :=
  k <- gets (fun s => next_handle (snd s)) ;;
  host (add_listener point_in_time) ;;
  ret k.

(** Modelled from the spec: [cancel(handle)] of the timer service.  Removing
    a listener that is already gone changes nothing. *)
Definition cancel_listener (k : handle) : M sys unit :=
  host (remove_listener k).

(** Calling the attribute [self._cancel]: calling [None] raises
    [TypeError], otherwise the cancel function of the listener runs. *)
Definition call_cancel (c : option handle) : M sys unit :=
  match c with
  | None => raise TypeError
  | Some k => cancel_listener k
  end.

(** Modelled from the spec: the action runner, [script.async_run(context)]
    of [homeassistant.helpers.script].  "core calls invoke(actionHandle,
    contextInfo) -> asynchronous completion; failures are reported by the
    runner and do not propagate as fatal errors into the state machine." *)
Definition async_run (script : Script) (context : option Context)
    : M sys unit :=
  host (log_effect (ScriptRun script context)).

(** ** Properties of the entity *)

(** [Alert.state] *)
Definition state (a : Alert) : ha_state :=
  if _triggered a then
    if _ack a then STATE_OFF else STATE_ON
  else STATE_IDLE.

(** [Alert.hidden] *)
Definition hidden (a : Alert) : bool :=
  negb (_can_ack a) || negb (_triggered a).

(** The presentation layer shows an entity exactly when it is not hidden. *)
Definition visible (a : Alert) : bool := negb (hidden a).

(** Modelled from the spec: [Entity.async_update_ha_state] of the base
    class, the "observable status re-publish".  It reads [self.state] and
    writes it to the host. *)
Definition async_update_ha_state : M sys unit :=
  st <- self_ state ;;
  host (log_effect (StateWritten st)).

(** Modelled from the spec: [Entity.async_schedule_update_ha_state] of the
    base class, which schedules that write as a job of its own; the status
    is published "after each completed transition". *)
Definition async_schedule_update_ha_state : M sys unit :=
  host (log_effect StateWriteScheduled).

(** ** Methods of [Alert] *)

(** [Alert._execute_script] *)
Definition _execute_script (script : option Script) : M sys unit :=
  match script with
  | None => ret tt
  | Some sc =>
      context <- self_ _context ;;
      await (async_run sc context)
  end.

(** [Alert._schedule_trigger].  Both the indexing and the addition can
    raise; they come before the assignments to [_cancel] and
    [_next_delay]. *)
Definition _schedule_trigger : M sys unit :=
  lst <- self_ _delay ;;
  i <- self_ _next_delay ;;
  delay <- eval (py_getitem lst i) ;;
  t <- now ;;
  next_msg <- eval (datetime_add t delay) ;;
  k <- async_track_point_in_time next_msg ;;
  assign (set_cancel (Some k)) ;;
  i <- self_ _next_delay ;;
  lst <- self_ _delay ;;
  assign (set_next_delay (Z.min (i + 1) (Z.of_nat (length lst) - 1))).

(** [Alert._trigger].  The call of [_execute_script] on line 248 of the
    source has no [await]. *)
Definition _trigger : M sys unit :=
  triggered <- self_ _triggered ;;
  if negb triggered then ret tt
  else
    ack <- self_ _ack ;;
    (if negb ack then
       assign (set_execute_done_script true) ;;
       script <- self_ _triggered_script ;;
       call_without_await "_execute_script" (_execute_script (Some script))
     else ret tt) ;;
    await _schedule_trigger.

(** [Alert._done].  The call of [_execute_script] on line 255 of the source
    has no [await]. *)
Definition _done : M sys unit :=
  assign (set_execute_done_script false) ;;
  script <- self_ _done_script ;;
  call_without_await "_execute_script" (_execute_script (Some script)).

(** [Alert.begin_alerting] *)
Definition begin_alerting : M sys unit :=
  assign (set_ack false) ;;
  assign (set_triggered true) ;;
  assign (set_next_delay 0) ;;
  skip_first <- self_ _skip_first ;;
  (if negb skip_first then await _trigger
   else await _schedule_trigger) ;;
  async_schedule_update_ha_state.

(** [Alert.end_alerting] *)
Definition end_alerting : M sys unit :=
  c <- self_ _cancel ;;
  call_cancel c ;;
  assign (set_ack false) ;;
  assign (set_triggered false) ;;
  flag <- self_ _execute_done_script ;;
  (if flag then await _done else ret tt) ;;
  async_schedule_update_ha_state.

(** The [to_state] argument of the state-change callback: the new state
    object, identified with its attribute [state], or [None] when the
    watched entity was removed. *)
Definition new_state : Type := option string.

Definition reported (value : string) : new_state := Some value.
Coercion reported : string >-> new_state.

(** [to_state.state]: reading the attribute of [None] raises
    [AttributeError]. *)
Definition state_attr {St} (to_state : new_state) : M St string :=
  match to_state with
  | Some value => ret value
  | None => raise AttributeError
  end.

(** [Alert.watched_entity_change]; the arguments [entity] and [from_state]
    are only logged. *)
Definition watched_entity_change (to_state : new_state) : M sys unit :=
  value <- state_attr to_state ;;
  alert_state <- self_ _alert_state ;;
  triggered <- self_ _triggered ;;
  (if String.eqb value alert_state && negb triggered
   then await begin_alerting else ret tt) ;;
  value <- state_attr to_state ;;
  alert_state <- self_ _alert_state ;;
  triggered <- self_ _triggered ;;
  (if negb (String.eqb value alert_state) && triggered
   then await end_alerting else ret tt).

(** [Alert.async_turn_on]: reset (un-acknowledge). *)
Definition async_turn_on : M sys unit :=
  assign (set_ack false) ;;
  await async_update_ha_state.

(** [Alert.async_turn_off]: acknowledge. *)
Definition async_turn_off : M sys unit :=
  assign (set_ack true) ;;
  await async_update_ha_state.

(** [Alert.async_toggle] *)
Definition async_toggle : M sys unit :=
  ack <- self_ _ack ;;
  if ack then await async_turn_on
  else await async_turn_off.

(** A list comprehension [[f(x) for x in l]] whose element expression can
    raise. *)
Fixpoint comprehension {St A B} (f : A -> res B) (l : list A)
    : M St (list B) :=
  match l with
  | [] => ret []
  | x :: l' =>
      y <- eval (f x) ;;
      ys <- comprehension f l' ;;
      ret (y :: ys)
  end.

(** [Alert.__init__]: the object starts idle, unacknowledged, without a
    cancel function, and subscribes to the watched entity.  The conversion
    of [repeat] on line 161 can raise; then no object comes into being.
    [_context] is the class attribute of the base class, [None]. *)
Definition Alert__init__
    (object_id name watched_entity_id alert_state : string)
    (repeat : list pyfloat) (skip_first can_ack : bool)
    (triggered_action done_action : option nat) : M Hass Alert :=
  delay <- comprehension timedelta_minutes repeat ;;
  let self :=
    mkAlert name alert_state skip_first can_ack
      (mkScript triggered_action) (mkScript done_action)
      delay 0
      false false None false
      (ENTITY_ID_FORMAT object_id) None in
  modify (log_effect (StateChangeTracked watched_entity_id)) ;;
  ret self.

(** ** [async_setup] *)

(** One entry of [config[DOMAIN]] after validation by [ALERT_SCHEMA]: the
    required keys are present with values of the validated type (defaults
    filled in), the two script keys are optional. *)
Record AlertConf : Type := mkAlertConf {
  conf_name : string;
  conf_entity_id : string;
  conf_state : string;
  conf_repeat : list pyfloat;
  conf_can_acknowledge : bool;
  conf_skip_first : bool;
  conf_triggered : option nat;
  conf_done : option nat
}.

(** [cfg.get[key]]: the bound method [cfg.get] is subscripted instead of
    called, which raises
    [TypeError: 'builtin_function_or_method' object is not subscriptable]. *)
Definition subscript_bound_method {St A} (key : string) : M St A :=
  raise TypeError.

(** The [for object_id, cfg in config[DOMAIN].items()] loop of
    [async_setup]; [entities] is the list built so far.  A validated entry
    is never empty, so [if not cfg: cfg = {}] does not apply. *)
Fixpoint setup_entities (items : list (string * AlertConf))
    (entities : list Alert) : M Hass (list Alert) :=
  match items with
  | [] => ret entities
  | (object_id, cfg) :: items' =>
      let name := conf_name cfg in
      let watched_entity_id := conf_entity_id cfg in
      let alert_state := conf_state cfg in
      let repeat := conf_repeat cfg in
      let skip_first := conf_skip_first cfg in
      let can_ack := conf_can_acknowledge cfg in
      triggered_action <- subscript_bound_method CONF_TRIGGERED ;;
      done_action <- subscript_bound_method CONF_DONE ;;
      alert <- Alert__init__ object_id name watched_entity_id alert_state
                 repeat skip_first can_ack triggered_action done_action ;;
      setup_entities items' (entities ++ [alert])
  end.

(** [async_setup]: build the entities, register the three services and
    write the initial state of every alert. *)
Definition async_setup (config : list (string * AlertConf)) : M Hass bool :=
  entities <- setup_entities config [] ;;
  match entities with
  | [] => ret false
  | _ =>
      modify (log_effect (ServiceRegistered SERVICE_TURN_OFF)) ;;
      modify (log_effect (ServiceRegistered SERVICE_TURN_ON)) ;;
      modify (log_effect (ServiceRegistered SERVICE_TOGGLE)) ;;
      modify (fun h =>
                fold_left
                  (fun h alert => log_effect (StateWritten (state alert)) h)
                  entities h) ;;
      ret true
  end.

(** The [service_call] object handed to the service handler. *)
Record service_call : Type := mkServiceCall {
  service : service_name;
  context : Context
}.

(** A call of a service, when the context does not matter. *)
Definition call_of (svc : service_name) : service_call :=
  mkServiceCall svc 0%nat.
Coercion call_of : service_name >-> service_call.

(** The body of [async_handle_alert_service] for the alert whose
    [entity_id] is addressed by the call. *)
Definition async_handle_alert_service (call : service_call) : M sys unit :=
  assign (async_set_context (context call)) ;;
  match service call with
  | SERVICE_TURN_ON => await async_turn_on
  | SERVICE_TOGGLE => await async_toggle
  | SERVICE_TURN_OFF => await async_turn_off
  end.

(** ** The event loop *)

(** What the host delivers to an alert.  Every event is handled to
    completion before the next one. *)
Inductive event : Type :=
| StateChanged (to_state : new_state)
                                     (* the watched entity reports a state *)
| TimePasses (d : N)                 (* the clock advances by d microseconds *)
| PointInTime (k : handle)           (* listener k, being due, fires *)
| ServiceCall (call : service_call). (* turn_on / turn_off / toggle *)

(** Modelled from the spec: the timer service fires a callback "at/after
    the given wall-clock timestamp, exactly once, unless cancelled first".
    A due listener is removed from the registry and its callback [_trigger]
    runs; a listener that is not pending or not yet due does not fire. *)
Definition fire (k : handle) : M sys unit :=
  due <- gets (fun s => listeners (snd s) !! k) ;;
  t <- now ;;
  match due with
  | Some point_in_time =>
      if point_in_time <=? t then cancel_listener k ;; await _trigger
      else ret tt
  | None => ret tt
  end.

Definition handle_event (e : event) : M sys unit :=
  match e with
  | StateChanged to_state => watched_entity_change to_state
  | TimePasses d => host (fun h => set_clock (clock h + Z.of_N d) h)
  | PointInTime k => fire k
  | ServiceCall call => async_handle_alert_service call
  end.

(** An exception raised by a handler is reported by the host; the object
    keeps the attributes assigned before the raise. *)
Definition step (e : event) (s : sys) : sys := snd (handle_event e s).

Definition run (es : list event) (s : sys) : sys :=
  fold_left (fun s e => step e s) es s.

(** The states an alert can be in: those the event loop reaches from a
    freshly constructed object on a host without pending listeners. *)
Definition fresh (s : sys) : Prop :=
  _triggered (fst s) = false /\ _ack (fst s) = false /\
  _cancel (fst s) = None /\ _execute_done_script (fst s) = false /\
  _next_delay (fst s) = 0 /\ listeners (snd s) = ∅.

Inductive reachable (s0 : sys) : sys -> Prop :=
| reach_init : reachable s0 s0
| reach_step s e : reachable s0 s -> reachable s0 (step e s).

(** The scripts that actually ran, read off a trace. *)
Fixpoint scripts_run (t : list effect) : list Script :=
  match t with
  | [] => []
  | ScriptRun s _ :: t' => s :: scripts_run t'
  | _ :: t' => scripts_run t'
  end.

(** The attributes fixed by [__init__]. *)
Definition config_of (a : Alert) :=
  (_name a, _alert_state a, _skip_first a, _can_ack a,
   _triggered_script a, _done_script a, _delay a, entity_id a).

(** The state a handler leaves behind, whether it returned or raised. *)
Definition exec {A} (c : M sys A) (s : sys) : sys := snd (c s).

(** The body of [_trigger] before the scheduling step, for an alert that
    is triggered. *)
Definition mark_fired (s : sys) : sys :=
  if _ack (fst s) then s
  else (set_execute_done_script true (fst s),
        log_effect (NeverAwaited "_execute_script") (snd s)).

(** ** Invariants of the event loop *)

(** At most one listener is pending; it is the one [_cancel] removes, and
    the alert is triggered while it is pending. *)
Definition timer_inv (s : sys) : Prop :=
  listeners (snd s) = ∅ \/
  exists k t, listeners (snd s) = {[k := t]} /\
              _cancel (fst s) = Some k /\ _triggered (fst s) = true.

(** With a non-empty delay list the cursor stays inside the list and a
    triggered alert holds a cancel function. *)
Definition armed_inv (s : sys) : Prop :=
  0 <= _next_delay (fst s) < Z.of_nat (length (_delay (fst s))) /\
  (_triggered (fst s) = true -> _cancel (fst s) <> None).





(** ** Counting transitions into the triggered state *)

(** The step from [s] to [s'] entered the triggered state. *)
Definition entered (s s' : sys) : bool :=
  negb (_triggered (fst s)) && _triggered (fst s').

(** [e] is a watched-state update equal to the alert state, arriving while
    the alert is not triggered. *)
Definition matches_while_idle (e : event) (s : sys) : bool :=
  match e with
  | StateChanged (Some value) =>
      String.eqb value (_alert_state (fst s)) && negb (_triggered (fst s))
  | _ => false
  end.

(** [e] is a watched-state update that repeats the current condition. *)
Definition duplicate_update (to_state : string) (s : sys) : bool :=
  Bool.eqb (String.eqb to_state (_alert_state (fst s))) (_triggered (fst s)).

Fixpoint enter_transitions (es : list event) (s : sys) : nat :=
  match es with
  | [] => 0%nat
  | e :: es' =>
      ((if entered s (step e s) then 1 else 0)
       + enter_transitions es' (step e s))%nat
  end.

Fixpoint matching_updates_while_idle (es : list event) (s : sys) : nat :=
  match es with
  | [] => 0%nat
  | e :: es' =>
      ((if matches_while_idle e s then 1 else 0)
       + matching_updates_while_idle es' (step e s))%nat
  end.

(** ** The reported status, in the words of the specification *)

(** "triggered and not acknowledged: firing; triggered and acknowledged:
    silenced; not triggered: idle". *)
Definition derived_status (triggered acknowledged : bool) : ha_state :=
  match triggered, acknowledged with
  | true, false => STATE_ON
  | true, true => STATE_OFF
  | false, _ => STATE_IDLE
  end.

(** ** A concrete installation *)

Definition minute : Z := 60000000.

Definition host0 : Hass := mkHass 0 ∅ 0%nat [].

(** An alert on a door sensor: repeat after 1 minute, then every 5. *)
Definition door_conf : AlertConf :=
  mkAlertConf "Door open" "binary_sensor.door" "on"
    [whole_minutes 1; whole_minutes 5] true false
    (Some 1%nat) (Some 2%nat).

Definition door : sys :=
  (mkAlert "Door open" "on" false true
     (mkScript (Some 1%nat)) (mkScript (Some 2%nat))
     [1 * minute; 5 * minute] 0 false false None false "alert.door" None,
   mkHass 0 ∅ 0%nat [StateChangeTracked "binary_sensor.door"]).

(** The same sensor with [skip_first] and a single delay of 10 minutes. *)
Definition door_skip_first : sys :=
  (mkAlert "Door open" "on" true true
     (mkScript (Some 1%nat)) (mkScript (Some 2%nat))
     [10 * minute] 0 false false None false "alert.door" None,
   mkHass 0 ∅ 0%nat [StateChangeTracked "binary_sensor.door"]).

(** ** The service handler over all entities *)

(** Run a method of the [i]-th entity; the object is updated in place. *)
Definition on_entity (i : nat) (c : M sys unit) : M (list Alert * Hass) unit :=
  fun st =>
    match fst st !! i with
    | Some alert =>
        match c (alert, snd st) with
        | (r, (alert', h')) => (r, (<[i := alert']> (fst st), h'))
        end
    | None => (Val tt, st)
    end.

(** A [for x in l] loop whose body returns nothing. *)
Fixpoint for_each {St A} (body : A -> M St unit) (l : list A) : M St unit :=
  match l with
  | [] => ret tt
  | x :: l' => body x ;; for_each body l'
  end.

(** The body of [for alert in entities] in [async_handle_alert_service]:
    an entity with another [entity_id] is skipped ([continue]). *)
Definition serve_entity (call : service_call) (alert_id : string) (i : nat)
    : M (list Alert * Hass) unit :=
  alert <- gets (fun st => fst st !! i) ;;
  match alert with
  | Some a =>
      if negb (String.eqb (entity_id a) alert_id) then ret tt
      else on_entity i (async_handle_alert_service call)
  | None => ret tt
  end.

(** The two nested loops of [async_handle_alert_service], over the entity
    ids extracted from the service call and over the entities built by
    [async_setup]. *)
Definition async_handle_alert_service_call (call : service_call)
    (alert_ids : list string) : M (list Alert * Hass) unit :=
  n <- gets (fun st => length (fst st)) ;;
  for_each (fun alert_id => for_each (serve_entity call alert_id) (seq 0 n))
    alert_ids.

(** The value of [_ack] a service leaves behind. *)
Definition ack_after (svc : service_name) (a : Alert) : bool :=
  match svc with
  | SERVICE_TURN_ON => false
  | SERVICE_TURN_OFF => true
  | SERVICE_TOGGLE => negb (_ack a)
  end.

(** While the alert is triggered exactly one listener is pending, the one
    [_cancel] removes; otherwise none is. *)
Definition schedule_alive (s : sys) : Prop :=
  if _triggered (fst s)
  then exists k t, listeners (snd s) = {[k := t]} /\ _cancel (fst s) = Some k
  else listeners (snd s) = ∅.

(** An alert configured with an empty [repeat] list. *)
Definition door_no_repeat : sys :=
  (mkAlert "Door open" "on" false true
     (mkScript (Some 1%nat)) (mkScript (Some 2%nat))
     [] 0 false false None false "alert.door" None,
   mkHass 0 ∅ 0%nat [StateChangeTracked "binary_sensor.door"]).

(** Two alerts on one host. *)
Definition door_and_window : list Alert * Hass :=
  ([fst door;
    mkAlert "Window open" "on" true true
      (mkScript None) (mkScript None)
      [10 * minute] 0 false false None false "alert.window" None],
   mkHass 0 ∅ 0%nat []).

(** ** Proof automation *)

(** Symbolic execution of a handler: unfold the methods and the monad,
    then split on whatever a conditional is waiting for. *)
Ltac reduce :=
  cbv [handle_event async_handle_alert_service fire
       watched_entity_change begin_alerting end_alerting
       _trigger _done _schedule_trigger _execute_script
       async_turn_on async_turn_off async_toggle
       async_update_ha_state async_schedule_update_ha_state
       async_track_point_in_time cancel_listener call_cancel async_run now
       call_without_await self_ assign host bind ret raise gets modify eval
       state hidden visible state_attr reported async_set_context service
       context call_of _context
       _name _alert_state _skip_first _can_ack _triggered_script _done_script
       _delay _next_delay _triggered _ack _cancel _execute_done_script
       entity_id
       set_next_delay set_triggered set_ack set_cancel
       set_execute_done_script
       clock listeners next_handle trace
       log_effect set_clock add_listener remove_listener
       negb andb orb fst snd] in *.

Ltac branch :=
  match goal with
  | H : String.eqb ?a ?b = _ |- context [String.eqb ?a ?b] => rewrite H
  | H : py_getitem ?l ?i = _ |- context [py_getitem ?l ?i] => rewrite H
  | H : datetime_add ?t ?d = _ |- context [datetime_add ?t ?d] => rewrite H
  | H : ?m !! ?k = _ |- context [?m !! ?k] => rewrite H
  | |- context [if ?b then _ else _] => is_var b; destruct b
  | |- context [String.eqb ?a ?b] => destruct (String.eqb a b) eqn:?
  | |- context [Z.leb ?a ?b] => destruct (Z.leb_spec a b)
  | |- context [py_getitem ?l ?i] => destruct (py_getitem l i) eqn:?
  | |- context [datetime_add ?t ?d] => destruct (datetime_add t d) eqn:?
  | |- context [match ?x with Some _ => _ | None => _ end] =>
      is_var x; destruct x
  | |- context [match ?m !! ?k with Some _ => _ | None => _ end] =>
      destruct (m !! k) eqn:?
  end.

Ltac symex := reduce; repeat (branch; reduce).

(** Close a goal whose context says that indexing inside the list raised
    ([in_list] is the lemma on indexing in range), or that a delay of a
    schedulable state overflowed ([in_range] is the lemma on those). *)
Ltac index_raised in_list :=
  match goal with
  | H : py_getitem ?l ?i = Raise _ |- _ =>
      let Hx := fresh in
      assert (Hx : 0 <= i < Z.of_nat (length l)) by lia;
      apply in_list in Hx; destruct Hx as (? & Hx & _); congruence
  end.

Ltac add_raised in_range Hs :=
  match goal with
  | H1 : py_getitem _ ?i = Val ?d, H2 : datetime_add _ ?d = Raise _ |- _ =>
      let Hx := fresh in
      pose proof (in_range _ i d Hs H1) as Hx; simpl in Hx; congruence
  end.

Ltac open_sys s :=
  let a := fresh "a" in
  let h := fresh "h" in
  destruct s as [a h];
  destruct a as [nm ast sf ca ts ds dl nd tr ak cn fl eid cx];
  destruct h as [clk ls nh trc].

(** ** The service handler, as a function on the entities *)

(** The alert a service call leaves behind: the context of the call is
    stored, then [_ack] is assigned. *)
Definition served (call : service_call) (a : Alert) : Alert :=
  set_ack (ack_after (service call) a) (async_set_context (context call) a).

(** One pass of the inner loop over an entity: served when its
    [entity_id] is the requested one, skipped otherwise. *)
Definition served_if (call : service_call) (alert_id : string) (a : Alert)
    : Alert :=
  if String.eqb (entity_id a) alert_id then served call a else a.

Definition written_if (call : service_call) (alert_id : string) (h : Hass)
    (a : Alert) : Hass :=
  if String.eqb (entity_id a) alert_id
  then log_effect (StateWritten (state (served call a))) h
  else h.

(** The entities and the host after the handler went through
    [alert_ids]. *)
Fixpoint service_call_result (call : service_call) (alert_ids : list string)
    (st : list Alert * Hass) : list Alert * Hass :=
  match alert_ids with
  | [] => st
  | alert_id :: alert_ids' =>
      service_call_result call alert_ids'
        (served_if call alert_id <$> fst st,
         fold_left (written_if call alert_id) (fst st) (snd st))
  end.

(** ** The range of [datetime] *)

(** Every delay of the list can be added to the current time. *)
Definition schedulable (s : sys) : bool :=
  forallb (fun d => match datetime_add (clock (snd s)) d with
                    | Val _ => true
                    | Raise _ => false
                    end)
    (_delay (fst s)).

(** The states reached through events that are all handled at a time from
    which every delay can be scheduled. *)
Inductive reachable_in_range (s0 : sys) : sys -> Prop :=
| in_range_init : reachable_in_range s0 s0
| in_range_step s e :
    reachable_in_range s0 s -> schedulable s = true ->
    reachable_in_range s0 (step e s).

(** Is [e] the update that announces the removal of the watched entity? *)
Definition is_removal (e : event) : bool :=
  match e with
  | StateChanged None => true
  | _ => false
  end.

(** 2019-01-01 00:00, day 737060 of the calendar. *)
Definition new_year_2019 : datetime := 737059 * us_per_day.

(** The door alert with one delay of 5e9 minutes (about 9500 years), set up
    in 2019. *)
Definition door_far : sys :=
  (mkAlert "Door open" "on" false true
     (mkScript (Some 1%nat)) (mkScript (Some 2%nat))
     [5000000000 * minute] 0 false false None false "alert.door" None,
   mkHass new_year_2019 ∅ 0%nat [StateChangeTracked "binary_sensor.door"]).

(** * Properties *)

(** ** Indexing the delay list *)

Lemma py_getitem_in_range {A} (lst : list A) (i : Z) :
  0 <= i < Z.of_nat (length lst) ->
  exists x, py_getitem lst i = Val x /\ lst !! Z.to_nat i = Some x.
Proof.
  intros Hi. unfold py_getitem.
  destruct (Z.ltb_spec i 0) as [Hneg|_]; [lia|].
  destruct (Z.ltb_spec i 0) as [Hneg|_]; [lia|].
  destruct (Z.leb_spec (Z.of_nat (length lst)) i) as [Hge|_]; [lia|].
  simpl. destruct (lst !! Z.to_nat i) as [x|] eqn:Hx.
  - eauto.
  - apply lookup_ge_None in Hx. lia.
Qed.

Lemma py_getitem_raises {A} (lst : list A) (i : Z) (e : exn) :
  py_getitem lst i = Raise e -> e = IndexError.
Proof.
  unfold py_getitem. intros H.
  destruct (_ || _); [congruence|].
  destruct (lst !! _); congruence.
Qed.

Lemma py_getitem_nil {A} (i : Z) : py_getitem (@nil A) i = Raise IndexError.
Proof.
  unfold py_getitem.
  destruct (_ || _); [reflexivity|].
  destruct (_ !! _) eqn:Hx; [|reflexivity].
  rewrite lookup_nil in Hx. discriminate.
Qed.

(** ** What each method does *)

Lemma datetime_add_val (t : datetime) (d : timedelta) (x : datetime) :
  datetime_add t d = Val x -> x = t + d.
Proof. unfold datetime_add. destruct (_ && _); congruence. Qed.

Lemma datetime_add_raises (t : datetime) (d : timedelta) (e : exn) :
  datetime_add t d = Raise e -> e = OverflowError.
Proof. unfold datetime_add. destruct (_ && _); congruence. Qed.

Lemma py_getitem_val_In {A} (lst : list A) (i : Z) (x : A) :
  py_getitem lst i = Val x -> In x lst.
Proof.
  unfold py_getitem. destruct (_ || _); [discriminate|].
  destruct (lst !! _) as [y|] eqn:Hy; [|discriminate].
  intros [= <-]. apply list_elem_of_In. by eapply list_elem_of_lookup_2.
Qed.

(** When every delay can be scheduled, the one under the cursor can. *)
Lemma schedulable_add (s : sys) (i : Z) (d : timedelta) :
  schedulable s = true ->
  py_getitem (_delay (fst s)) i = Val d ->
  datetime_add (clock (snd s)) d = Val (clock (snd s) + d).
Proof.
  unfold schedulable. intros Hs Hd.
  apply py_getitem_val_In in Hd.
  rewrite forallb_forall in Hs. specialize (Hs d Hd).
  destruct (datetime_add (clock (snd s)) d) as [x|] eqn:Hx; [|discriminate].
  by rewrite (datetime_add_val _ _ _ Hx).
Qed.

Lemma _schedule_trigger_ok (a : Alert) (h : Hass) (d : timedelta) :
  py_getitem (_delay a) (_next_delay a) = Val d ->
  datetime_add (clock h) d = Val (clock h + d) ->
  _schedule_trigger (a, h) =
    (Val tt,
     (set_next_delay
        (Z.min (_next_delay a + 1) (Z.of_nat (length (_delay a)) - 1))
        (set_cancel (Some (next_handle h)) a),
      add_listener (clock h + d) h)).
Proof. intros Hd Ht. reduce. rewrite Hd, Ht. reflexivity. Qed.

(** A due time outside the range of [datetime] raises [OverflowError]
    before the cancel function and the cursor are assigned. *)
Lemma _schedule_trigger_overflow (a : Alert) (h : Hass) (d : timedelta)
    (e : exn) :
  py_getitem (_delay a) (_next_delay a) = Val d ->
  datetime_add (clock h) d = Raise e ->
  _schedule_trigger (a, h) = (Raise OverflowError, (a, h)).
Proof.
  intros Hd Ht. reduce. rewrite Hd, Ht.
  by rewrite (datetime_add_raises _ _ _ Ht).
Qed.

Lemma _schedule_trigger_raise (a : Alert) (h : Hass) (e : exn) :
  py_getitem (_delay a) (_next_delay a) = Raise e ->
  _schedule_trigger (a, h) = (Raise e, (a, h)).
Proof. intros Hd. reduce. rewrite Hd. reflexivity. Qed.

(** A timer callback that finds the alert no longer triggered returns at
    once: nothing is assigned, nothing runs, nothing is scheduled. *)
Lemma _trigger_not_triggered (s : sys) :
  _triggered (fst s) = false -> _trigger s = (Val tt, s).
Proof.
  destruct s as [a h]. simpl. intros Ht.
  cbv [_trigger self_ bind ret gets fst]. rewrite Ht. reflexivity.
Qed.

Lemma _trigger_triggered (s : sys) :
  _triggered (fst s) = true -> _trigger s = _schedule_trigger (mark_fired s).
Proof.
  destruct s as [a h]. simpl. intros Ht. unfold mark_fired. simpl.
  cbv [_trigger self_ assign bind ret gets modify call_without_await fst snd].
  rewrite Ht. simpl. destruct (_ack a); reflexivity.
Qed.

(** ** The event loop preserves the invariants *)

Lemma run_cons (e : event) (es : list event) (s : sys) :
  run (e :: es) s = run es (step e s).
Proof. reflexivity. Qed.

Lemma run_app (es1 es2 : list event) (s : sys) :
  run (es1 ++ es2) s = run es2 (run es1 s).
Proof. unfold run. apply fold_left_app. Qed.

Lemma run_reachable (es : list event) (s0 : sys) : reachable s0 (run es s0).
Proof.
  induction es as [|e es IH] using rev_ind.
  - constructor.
  - rewrite run_app. simpl. unfold run at 1. simpl. by constructor.
Qed.

Lemma reachable_run (s0 s : sys) :
  reachable s0 s -> exists es, s = run es s0.
Proof.
  induction 1 as [|s e _ [es ->]].
  - by exists [].
  - exists (es ++ [e]). by rewrite run_app.
Qed.

Lemma reachable_ind_inv (P : sys -> Prop) (s0 s : sys) :
  P s0 -> (forall e s, P s -> P (step e s)) -> reachable s0 s -> P s.
Proof. intros H0 Hstep. induction 1; auto. Qed.

Lemma step_config (e : event) (s : sys) :
  config_of (fst (step e s)) = config_of (fst s).
Proof.
  open_sys s. unfold step, config_of.
  destruct e as [to_state|d|k|[[| |] ctx]]; symex; reflexivity.
Qed.

Lemma step_delay (e : event) (s : sys) :
  _delay (fst (step e s)) = _delay (fst s).
Proof.
  pose proof (step_config e s) as H. unfold config_of in H. congruence.
Qed.

Lemma reachable_delay (s0 s : sys) :
  reachable s0 s -> _delay (fst s) = _delay (fst s0).
Proof. induction 1; [done|]. by rewrite step_delay. Qed.

Lemma fresh_timer_inv (s : sys) : fresh s -> timer_inv s.
Proof. intros (_ & _ & _ & _ & _ & H). by left. Qed.

Lemma timer_inv_step (e : event) (s : sys) :
  timer_inv s -> timer_inv (step e s).
Proof.
  open_sys s. unfold timer_inv, step.
  destruct e as [to_state|d|k|[[| |] ctx]]; intros H; symex; try assumption.
  all: destruct H as [->|(k' & t' & -> & Hc & Ht)];
    simplify_eq; try discriminate.
  all: rewrite ?delete_empty, ?delete_singleton_eq, ?insert_empty; eauto 8.
  all: try (rewrite lookup_empty in *; discriminate).
  all: try match goal with
    | H : {[_ := _]} !! _ = Some _ |- _ =>
        apply lookup_singleton_Some in H; destruct H as [-> ->]
    end.
  all: rewrite ?delete_empty, ?delete_singleton_eq, ?insert_empty; eauto 8.
Qed.

Lemma py_getitem_val_nonempty {A} (lst : list A) (i : Z) (x : A) :
  py_getitem lst i = Val x -> (0 < Z.of_nat (length lst)).
Proof.
  destruct lst; [|simpl; lia].
  rewrite py_getitem_nil. discriminate.
Qed.

Lemma fresh_armed_inv (s : sys) :
  fresh s -> _delay (fst s) <> [] -> armed_inv s.
Proof.
  intros (Ht & _ & _ & _ & Hn & _) Hd. split.
  - rewrite Hn. destruct (_delay (fst s)); [done|simpl; lia].
  - rewrite Ht. discriminate.
Qed.

(** The cursor stays inside a non-empty list, whatever happens. *)
Lemma cursor_step (e : event) (s : sys) :
  0 <= _next_delay (fst s) < Z.of_nat (length (_delay (fst s))) ->
  0 <= _next_delay (fst (step e s))
    < Z.of_nat (length (_delay (fst (step e s)))).
Proof.
  open_sys s. unfold step.
  destruct e as [to_state|d|k|[[| |] ctx]]; intros Hn; symex;
    try assumption; try lia.
  all: match goal with
    | H : py_getitem _ _ = Val _ |- _ =>
        apply py_getitem_val_nonempty in H
    end; lia.
Qed.

Lemma armed_inv_step (e : event) (s : sys) :
  schedulable s = true -> armed_inv s -> armed_inv (step e s).
Proof.
  intros Hs [Hn Hc]. split; [by apply cursor_step|].
  revert Hs Hn Hc. open_sys s. unfold step.
  destruct e as [to_state|d|k|[[| |] ctx]]; intros Hs Hn Hc; symex;
    try done.
  all: try add_raised schedulable_add Hs.
  all: try index_raised (@py_getitem_in_range timedelta).
  all: try (intros _; by apply Hc).
Qed.

Lemma armed_inv_reachable (s0 s : sys) :
  fresh s0 -> _delay (fst s0) <> [] -> reachable_in_range s0 s ->
  armed_inv s.
Proof.
  intros Hf Hd. induction 1 as [|s e _ IH Hs].
  - by apply fresh_armed_inv.
  - by apply armed_inv_step.
Qed.

Lemma in_range_reachable (s0 s : sys) :
  reachable_in_range s0 s -> reachable s0 s.
Proof. induction 1; by constructor. Qed.

(** With a non-empty delay list and every delay in range, the only handler
    that raises is the one of a removal update. *)
Lemma armed_no_exception (e : event) (s : sys) :
  schedulable s = true -> is_removal e = false -> armed_inv s ->
  fst (handle_event e s) = Val tt.
Proof.
  open_sys s. unfold armed_inv.
  destruct e as [to_state|d|k|[[| |] ctx]]; intros Hs He [Hn Hc]; symex;
    try reflexivity; try discriminate.
  all: try add_raised schedulable_add Hs.
  all: try index_raised (@py_getitem_in_range timedelta).
  all: try (exfalso; by apply Hc).
Qed.

(** No handler ever runs a script: both calls of [_execute_script] build a
    coroutine that is dropped. *)
Lemma scripts_run_app (t1 t2 : list effect) :
  scripts_run (t1 ++ t2) = scripts_run t1 ++ scripts_run t2.
Proof.
  induction t1 as [|[] t1 IH]; simpl; try done. by rewrite IH.
Qed.

Lemma step_runs_no_script (e : event) (s : sys) :
  scripts_run (trace (snd (step e s))) = scripts_run (trace (snd s)).
Proof.
  open_sys s. unfold step.
  destruct e as [to_state|d|k|[[| |] ctx]]; symex.
  all: rewrite <- ?app_assoc, ?scripts_run_app; simpl;
    rewrite ?app_nil_r; reflexivity.
Qed.

Lemma run_runs_no_script (es : list event) (s : sys) :
  scripts_run (trace (snd (run es s))) = scripts_run (trace (snd s)).
Proof.
  revert s. induction es as [|e es IH]; intros s; [done|].
  rewrite run_cons, IH. apply step_runs_no_script.
Qed.

(** Had the coroutine been awaited, the script would have run. *)
Lemma _execute_script_awaited (sc : Script) (s : sys) :
  _execute_script (Some sc) s =
    (Val tt, (fst s, log_effect (ScriptRun sc (_context (fst s))) (snd s))).
Proof. destruct s. reflexivity. Qed.

(** ** Entering and leaving the triggered state *)

Lemma entered_iff_matches (e : event) (s : sys) :
  entered s (step e s) = matches_while_idle e s.
Proof.
  open_sys s. unfold entered, matches_while_idle, step.
  destruct e as [to_state|d|k|[[| |] ctx]]; symex; reflexivity.
Qed.

Lemma duplicate_update_ignored (to_state : string) (s : sys) :
  duplicate_update to_state s = true ->
  watched_entity_change to_state s = (Val tt, s).
Proof.
  open_sys s. unfold duplicate_update. simpl. intros H.
  destruct (String.eqb to_state ast) eqn:He, tr; try discriminate;
    clear H; cbv [reported]; symex; reflexivity.
Qed.

(** ** The Idle state *)


Lemma timer_inv_idle (s : sys) :
  timer_inv s -> _triggered (fst s) = false -> listeners (snd s) = ∅.
Proof. intros [H|(k & t & _ & _ & H)] Ht; [done|congruence]. Qed.



(** Once the alert has left the triggered state no listener is left to
    fire: a point-in-time event changes nothing. *)
Lemma no_fire_when_idle (k : handle) (s : sys) :
  timer_inv s -> _triggered (fst s) = false ->
  fire k s = (Val tt, s).
Proof.
  intros Hinv Ht. pose proof (timer_inv_idle s Hinv Ht) as Hl.
  destruct s as [a h]. simpl in Hl.
  cbv [fire bind gets now ret snd]. rewrite Hl, lookup_empty. reflexivity.
Qed.




(** ** What the transitions do *)

(** Entering the triggered state, for a delay list with a first entry
    that can be added to the current time. *)
Lemma begin_alerting_ok (a : Alert) (h : Hass) (d : timedelta) :
  py_getitem (_delay a) 0 = Val d ->
  datetime_add (clock h) d = Val (clock h + d) ->
  let a1 := set_next_delay 0 (set_triggered true (set_ack false a)) in
  let a2 := if _skip_first a then a1 else set_execute_done_script true a1 in
  let h2 := if _skip_first a then h
            else log_effect (NeverAwaited "_execute_script") h in
  begin_alerting (a, h) =
    (Val tt,
     (set_next_delay (Z.min 1 (Z.of_nat (length (_delay a)) - 1))
        (set_cancel (Some (next_handle h)) a2),
      log_effect StateWriteScheduled (add_listener (clock h + d) h2))).
Proof.
  intros Hd Ht. destruct a as [nm ast sf ca ts ds dl nd tr ak cn fl eid cx].
  destruct h as [clk ls nh trc]. simpl in Hd, Ht. symex; reflexivity.
Qed.


Lemma end_alerting_no_cancel (a : Alert) (h : Hass) :
  _cancel a = None -> end_alerting (a, h) = (Raise TypeError, (a, h)).
Proof.
  intros Hc. destruct a as [nm ast sf ca ts ds dl nd tr ak cn fl eid cx].
  simpl in Hc. subst cn. reflexivity.
Qed.


(** Acknowledge, reset and toggle assign [_ack] and write the state;
    nothing else is touched. *)
Lemma async_turn_off_eq (s : sys) :
  async_turn_off s =
    (Val tt,
     (set_ack true (fst s),
      log_effect (StateWritten (state (set_ack true (fst s)))) (snd s))).
Proof. destruct s. reflexivity. Qed.

Lemma async_turn_on_eq (s : sys) :
  async_turn_on s =
    (Val tt,
     (set_ack false (fst s),
      log_effect (StateWritten (state (set_ack false (fst s)))) (snd s))).
Proof. destruct s. reflexivity. Qed.

Lemma async_toggle_eq (s : sys) :
  async_toggle s =
    if _ack (fst s) then async_turn_on s else async_turn_off s.
Proof.
  destruct s as [a h]. unfold async_toggle, bind, self_, gets. simpl.
  by destruct (_ack a).
Qed.

Lemma enter_transitions_count (es : list event) (s : sys) :
  enter_transitions es s = matching_updates_while_idle es s.
Proof.
  revert s. induction es as [|e es IH]; intros s; [done|].
  simpl. by rewrite entered_iff_matches, IH.
Qed.

(** ** The concrete installation *)

Lemma door_constructed :
  Alert__init__ "door" "Door open" "binary_sensor.door" "on"
    [whole_minutes 1; whole_minutes 5]
    false true (Some 1%nat) (Some 2%nat) host0 = (Val (fst door), snd door).
Proof. reflexivity. Qed.

Lemma comprehension_host {St A B} (f : A -> res B) (l : list A) (h : St) :
  snd (comprehension f l h) = h.
Proof.
  induction l as [|x l IH]; [reflexivity|].
  simpl. unfold bind, eval. destruct (f x); [|reflexivity].
  destruct (comprehension f l h) as [[ys|e] h']; simpl in *; by subst.
Qed.

Lemma comprehension_nonempty {St A B} (f : A -> res B) (l : list A) (h : St)
    (ys : list B) :
  fst (comprehension f l h) = Val ys -> l <> [] -> ys <> [].
Proof.
  destruct l as [|x l]; [done|]. intros H _. simpl in H.
  unfold bind, eval in H. destruct (f x); [|discriminate].
  destruct (comprehension f l h) as [[zs|e] h']; simpl in H; [|discriminate].
  by injection H as <-.
Qed.

(** When the constructor returns, the alert it returns is fresh. *)
Lemma Alert__init__fresh (object_id name watched alert_state : string)
    (repeat : list pyfloat) (skip_first can_ack : bool)
    (triggered_action done_action : option nat) (h h' : Hass) (a : Alert) :
  listeners h = ∅ ->
  Alert__init__ object_id name watched alert_state repeat
    skip_first can_ack triggered_action done_action h = (Val a, h') ->
  fresh (a, h') /\ (repeat <> [] -> _delay a <> []).
Proof.
  intros Hl. unfold Alert__init__, bind.
  pose proof (comprehension_host timedelta_minutes repeat h) as Hh.
  pose proof (comprehension_nonempty timedelta_minutes repeat h) as Hne.
  destruct (comprehension timedelta_minutes repeat h) as [[dl|e] h1];
    [|discriminate].
  simpl in Hh. subst h1. intros [= <- <-]. split.
  - by repeat split.
  - simpl. by apply Hne.
Qed.

(** ** Watched-state updates *)

(** C7: a watched-state update that repeats the current condition (equal
    to the alert state while triggered, different from it while not
    triggered) returns without changing the alert or the host; and along
    every sequence of events the number of steps that enter the triggered
    state equals the number of matching updates received while not
    triggered. *)
Theorem duplicate_updates_ignored_and_entries_counted (s : sys) :
  (forall to_state,
     duplicate_update to_state s = true ->
     watched_entity_change to_state s = (Val tt, s)) /\
  (forall es, enter_transitions es s = matching_updates_while_idle es s).
Proof.
  split.
  - intros to_state. apply duplicate_update_ignored.
  - intros es. apply enter_transitions_count.
Qed.

Lemma duplicate_updates_ignored_and_entries_counted_witness :
  let es := [StateChanged "off"; StateChanged "on"; StateChanged "on";
             StateChanged "off"; StateChanged "on"] in
  duplicate_update "off" door = true /\
  watched_entity_change "off" door = (Val tt, door) /\
  enter_transitions es door = 2%nat.
Proof.
  intros es.
  destruct (duplicate_updates_ignored_and_entries_counted door) as [H1 H2].
  split; [reflexivity|]. split.
  - apply H1. reflexivity.
  - rewrite H2. reflexivity.
Defined.

(** ** Acknowledge, reset, toggle *)

(** C8: in every state, acknowledge followed by toggle leaves the alert
    unacknowledged, reset followed by toggle leaves it acknowledged, and a
    second acknowledge leaves the alert object as the first one left it (the
    host only sees the same status written once more). *)
Theorem toggle_inverts_and_acknowledge_idempotent (s : sys) :
  _ack (fst (exec (async_turn_off ;; async_toggle) s)) = false /\
  _ack (fst (exec (async_turn_on ;; async_toggle) s)) = true /\
  fst (exec (async_turn_off ;; async_turn_off) s)
    = fst (exec async_turn_off s) /\
  snd (exec (async_turn_off ;; async_turn_off) s)
    = log_effect (StateWritten (state (fst (exec async_turn_off s))))
        (snd (exec async_turn_off s)).
Proof.
  open_sys s. unfold exec. repeat split; symex; reflexivity.
Qed.

(** ** The reported status *)

(** C9: the reported state is a function of [_triggered] and [_ack] alone
    (on when triggered and not acknowledged, off when triggered and
    acknowledged, idle otherwise), and the alert is visible (not hidden)
    exactly when it can be acknowledged and is triggered. *)
Theorem status_derived_from_flags (a : Alert) :
  state a = derived_status (_triggered a) (_ack a) /\
  visible a = _can_ack a && _triggered a /\
  hidden a = negb (_can_ack a && _triggered a).
Proof.
  unfold state, derived_status, visible, hidden.
  destruct (_triggered a), (_ack a), (_can_ack a); by repeat split.
Qed.

(** ** The cancel function *)

Lemma door_far_constructed :
  Alert__init__ "door" "Door open" "binary_sensor.door" "on"
    [whole_minutes 5000000000] false true (Some 1%nat) (Some 2%nat)
    (mkHass new_year_2019 ∅ 0%nat [])
  = (Val (fst door_far), snd door_far).
Proof. reflexivity. Qed.




(** ** The scripts are never run *)

(** C2 (defect in the code): the door alert (delays 1 and 5 minutes, no
    [skip_first]) is triggered at time 0 and its listener fires one minute
    later, unacknowledged.  The callback returns normally, marks the done
    script as due, moves the cursor to 1 and schedules the next listener at
    minute 6; but the coroutine of [_execute_script] is dropped and the
    triggered script does not run. *)
Theorem timer_fire_drops_triggered_script :
  let s1 := run [StateChanged "on"; TimePasses (Z.to_N (1 * minute))] door in
  let s2 := exec (fire 0%nat) s1 in
  _triggered (fst s1) = true /\ _ack (fst s1) = false /\
  listeners (snd s1) = {[0%nat := 1 * minute]} /\
  fst (fire 0%nat s1) = Val tt /\
  _execute_done_script (fst s2) = true /\
  _next_delay (fst s2) = 1 /\
  listeners (snd s2) = {[1%nat := 6 * minute]} /\
  trace (snd s2) = trace (snd s1) ++ [NeverAwaited "_execute_script"] /\
  scripts_run (trace (snd s2)) = [].
Proof. vm_compute. repeat split; reflexivity. Qed.

(** C3 (defect in the code): a matching update reaches the fresh door
    alert (no [skip_first]).  The alert becomes triggered and
    unacknowledged, marks the done script as due and schedules the first
    listener one minute ahead, read from index 0 (the cursor then stands at
    1); but the coroutine of [_execute_script] is dropped and the triggered
    script does not run. *)
Theorem entry_drops_triggered_script :
  let s1 := exec (watched_entity_change "on") door in
  fst (watched_entity_change "on" door) = Val tt /\
  _triggered (fst s1) = true /\ _ack (fst s1) = false /\
  _execute_done_script (fst s1) = true /\
  listeners (snd s1) = {[0%nat := 1 * minute]} /\
  _next_delay (fst s1) = 1 /\
  trace (snd s1) =
    trace (snd door) ++ [NeverAwaited "_execute_script"; StateWriteScheduled] /\
  scripts_run (trace (snd s1)) = [].
Proof. vm_compute. repeat split; reflexivity. Qed.

(** C4 (defect in the code): the door alert is triggered, which marks the
    done script as due, and then a non-matching update arrives.  The
    listener is cancelled, [_triggered], [_ack] and the mark are cleared;
    but the coroutine of [_execute_script] is dropped and the done script
    does not run. *)
Theorem exit_drops_done_script :
  let s1 := run [StateChanged "on"] door in
  let s2 := exec (watched_entity_change "off") s1 in
  _execute_done_script (fst s1) = true /\
  fst (watched_entity_change "off" s1) = Val tt /\
  _triggered (fst s2) = false /\ _ack (fst s2) = false /\
  _execute_done_script (fst s2) = false /\
  listeners (snd s2) = ∅ /\
  trace (snd s2) =
    trace (snd s1) ++ [NeverAwaited "_execute_script"; StateWriteScheduled] /\
  scripts_run (trace (snd s2)) = [].
Proof. vm_compute. repeat split; reflexivity. Qed.

(** C6 (defect in the code): the door alert is triggered and acknowledged;
    the acknowledge assigns [_ack] and writes the state, nothing else.  The
    listener fires after a minute without touching the trace and schedules
    the next one at minute 6.  After a reset that one fires too, takes the
    unacknowledged branch and schedules minute 11; but the coroutine of
    [_execute_script] is dropped, so the triggered script is not run again. *)
Theorem reset_does_not_resume_triggered_script :
  let s1 := run [StateChanged "on"] door in
  let s2 := exec async_turn_off s1 in
  let s3 := run [TimePasses (Z.to_N (1 * minute)); PointInTime 0%nat] s2 in
  let s4 := exec async_turn_on s3 in
  let s5 := run [TimePasses (Z.to_N (5 * minute)); PointInTime 1%nat] s4 in
  s2 = (set_ack true (fst s1), log_effect (StateWritten STATE_OFF) (snd s1)) /\
  listeners (snd s3) = {[1%nat := 6 * minute]} /\
  trace (snd s3) = trace (snd s2) /\
  _ack (fst s4) = false /\
  listeners (snd s5) = {[2%nat := 11 * minute]} /\
  trace (snd s5) = trace (snd s4) ++ [NeverAwaited "_execute_script"] /\
  scripts_run (trace (snd s5)) = [].
Proof. vm_compute. repeat split; reflexivity. Qed.

(** ** Setting up the component *)

Lemma async_setup_empty (h : Hass) : async_setup [] h = (Val false, h).
Proof. reflexivity. Qed.

(** C5 (defect in the code): whenever the configuration has at least one
    alert, [async_setup] raises [TypeError] while it handles the first
    entry, at [cfg.get[CONF_TRIGGERED]]; no [Alert] is constructed and the
    host is left as it was. *)
Theorem async_setup_raises (object_id : string) (cfg : AlertConf)
    (items : list (string * AlertConf)) (h : Hass) :
  async_setup ((object_id, cfg) :: items) h = (Raise TypeError, h).
Proof. reflexivity. Qed.

(** With [skip_first] nothing is attempted on entry: the first listener is
    scheduled ten minutes ahead and the mark for the done script stays
    clear.  When that listener fires the callback takes the unacknowledged
    branch, and again only builds the coroutine. *)
Lemma skip_first_entry_and_first_fire :
  let s1 := run [StateChanged "on"] door_skip_first in
  let s2 := run [TimePasses (Z.to_N (10 * minute)); PointInTime 0%nat] s1 in
  _triggered (fst s1) = true /\ _execute_done_script (fst s1) = false /\
  listeners (snd s1) = {[0%nat := 10 * minute]} /\
  trace (snd s1) = trace (snd door_skip_first) ++ [StateWriteScheduled] /\
  _execute_done_script (fst s2) = true /\
  listeners (snd s2) = {[1%nat := 20 * minute]} /\
  trace (snd s2) = trace (snd s1) ++ [NeverAwaited "_execute_script"].
Proof. vm_compute. repeat split; reflexivity. Qed.

(** After the exit the attribute [_cancel] still holds the function of the
    cancelled listener; the registry itself is empty. *)
Lemma cancel_kept_after_exit :
  let s := run [StateChanged "on"; StateChanged "off"] door in
  _triggered (fst s) = false /\ _cancel (fst s) = Some 0%nat /\
  listeners (snd s) = ∅.
Proof. vm_compute. repeat split; reflexivity. Qed.

(** * Further properties of the event loop *)

Lemma fresh_schedule_alive (s : sys) : fresh s -> schedule_alive s.
Proof.
  intros (Ht & _ & _ & _ & _ & Hl). unfold schedule_alive. by rewrite Ht.
Qed.

Lemma schedule_alive_step (e : event) (s : sys) :
  schedulable s = true ->
  armed_inv s -> schedule_alive s -> schedule_alive (step e s).
Proof.
  open_sys s. unfold armed_inv, schedule_alive, step.
  destruct e as [to_state|d|k|[[| |] ctx]]; intros Hs [Hn Hc] H; symex;
    try assumption.
  all: try add_raised schedulable_add Hs.
  all: try index_raised (@py_getitem_in_range timedelta).
  all: try (exfalso; by apply Hc).
  all: try (destruct H as (k' & t' & -> & Hk); simplify_eq).
  all: try subst ls.
  all: try (rewrite lookup_empty in *; discriminate).
  all: try match goal with
    | H : {[_ := _]} !! _ = Some _ |- _ =>
        apply lookup_singleton_Some in H; destruct H as [-> ->]
    end.
  all: rewrite ?delete_empty, ?delete_singleton_eq, ?insert_empty; eauto.
Qed.

Lemma schedule_alive_reachable (s0 s : sys) :
  fresh s0 -> _delay (fst s0) <> [] -> reachable_in_range s0 s ->
  armed_inv s /\ schedule_alive s.
Proof.
  intros Hf Hd. induction 1 as [|s e _ [Ha Hal] Hs].
  - split; [by apply fresh_armed_inv|by apply fresh_schedule_alive].
  - split; [by apply armed_inv_step|by apply schedule_alive_step].
Qed.

(** X1: when [Alert.__init__] returns an alert for a non-empty [repeat]
    list (on a host without pending listeners), then in every state
    reached through events that were handled with every delay in range,
    and in which every delay is in range, exactly one kind of event makes
    a handler raise: the update that announces the removal of the watched
    entity raises [AttributeError] and changes nothing; every other
    handler returns normally. *)
Theorem constructed_alert_raises_only_on_removal
    (object_id name watched alert_state : string) (repeat : list pyfloat)
    (skip_first can_ack : bool) (triggered_action done_action : option nat)
    (h h' : Hass) (a : Alert) (s : sys) (e : event) :
  repeat <> [] ->
  listeners h = ∅ ->
  Alert__init__ object_id name watched alert_state repeat skip_first
    can_ack triggered_action done_action h = (Val a, h') ->
  reachable_in_range (a, h') s ->
  schedulable s = true ->
  handle_event e s =
    if is_removal e then (Raise AttributeError, s)
    else (Val tt, step e s).
Proof.
  intros Hr Hl Hinit Hreach Hs.
  destruct (Alert__init__fresh _ _ _ _ _ _ _ _ _ _ _ _ Hl Hinit)
    as [Hf Hd].
  pose proof (armed_inv_reachable _ s Hf (Hd Hr) Hreach) as Harm.
  destruct (is_removal e) eqn:He.
  - destruct e as [[v|]|d|k|c]; try discriminate. reflexivity.
  - pose proof (armed_no_exception e s Hs He Harm) as Hok.
    unfold step. destruct (handle_event e s) as [r s']. simpl in *.
    subst r. reflexivity.
Qed.

Lemma constructed_alert_raises_only_on_removal_witness :
  let s := step (ServiceCall SERVICE_TOGGLE) (step (StateChanged "on") door) in
  handle_event (StateChanged "off") s
    = (Val tt, step (StateChanged "off") s) /\
  handle_event (StateChanged None) s = (Raise AttributeError, s).
Proof.
  intros s.
  assert (Hreach : reachable_in_range door s).
  { apply in_range_step; [|reflexivity].
    apply in_range_step; [apply in_range_init|reflexivity]. }
  assert (Hne : [whole_minutes 1; whole_minutes 5] <> []) by discriminate.
  split.
  - exact (constructed_alert_raises_only_on_removal "door" "Door open"
             "binary_sensor.door" "on" [whole_minutes 1; whole_minutes 5]
             false true (Some 1%nat) (Some 2%nat) host0 (snd door) (fst door)
             s (StateChanged "off") Hne eq_refl door_constructed Hreach
             eq_refl).
  - exact (constructed_alert_raises_only_on_removal "door" "Door open"
             "binary_sensor.door" "on" [whole_minutes 1; whole_minutes 5]
             false true (Some 1%nat) (Some 2%nat) host0 (snd door) (fst door)
             s (StateChanged None) Hne eq_refl door_constructed Hreach
             eq_refl).
Defined.

(** X2: with a non-empty delay list the cursor [_next_delay] of every
    reachable state is a valid index of [_delay]. *)
Theorem cursor_stays_in_range (s0 s : sys) :
  fresh s0 ->
  _delay (fst s0) <> [] ->
  reachable s0 s ->
  0 <= _next_delay (fst s) < Z.of_nat (length (_delay (fst s0))).
Proof.
  intros Hf Hd Hr.
  rewrite <- (reachable_delay s0 s Hr).
  induction Hr as [|s e Hr IH].
  - destruct (fresh_armed_inv s0 Hf Hd) as [Hn _]. exact Hn.
  - by apply cursor_step.
Qed.

Lemma cursor_stays_in_range_witness :
  let s := run [StateChanged "on"; TimePasses (Z.to_N (2 * minute));
                PointInTime 0%nat; TimePasses (Z.to_N (9 * minute));
                PointInTime 1%nat] door in
  _next_delay (fst s) = 1 /\
  0 <= _next_delay (fst s) < Z.of_nat (length (_delay (fst door))).
Proof.
  intros s. split; [reflexivity|].
  apply (cursor_stays_in_range door s).
  - by repeat split.
  - discriminate.
  - apply run_reachable.
Defined.

(** X3: with a non-empty delay list, in every state reached from a fresh
    alert through events that are each handled at a time to which every
    delay can be added within the range of [datetime], a triggered alert
    has exactly one pending listener, the one [_cancel] removes, and an
    alert that is not triggered has none: the repeat schedule neither
    stops nor piles up. *)
Theorem one_listener_while_triggered (s0 s : sys) :
  fresh s0 ->
  _delay (fst s0) <> [] ->
  reachable_in_range s0 s ->
  schedule_alive s.
Proof. intros Hf Hd Hr. by destruct (schedule_alive_reachable s0 s). Qed.

Lemma one_listener_while_triggered_witness :
  let s := step (PointInTime 0%nat)
             (step (TimePasses (Z.to_N (1 * minute)))
                (step (StateChanged "on") door)) in
  _triggered (fst s) = true /\ listeners (snd s) = {[1%nat := 6 * minute]} /\
  schedule_alive s.
Proof.
  intros s. split; [reflexivity|]. split; [reflexivity|].
  apply (one_listener_while_triggered door s).
  - by repeat split.
  - discriminate.
  - repeat (apply in_range_step; [|reflexivity]). apply in_range_init.
Defined.

(** ** An empty delay list *)

(** X4: with an empty delay list, a matching update that reaches an alert
    that is not triggered raises [IndexError] out of [_schedule_trigger];
    the alert is left triggered and unacknowledged, its cancel function
    and the listener registry are as before. *)
Theorem empty_delay_entry_raises (s : sys) :
  _delay (fst s) = [] ->
  _triggered (fst s) = false ->
  let r := watched_entity_change (_alert_state (fst s)) s in
  fst r = Raise IndexError /\
  _triggered (fst (snd r)) = true /\ _ack (fst (snd r)) = false /\
  _cancel (fst (snd r)) = _cancel (fst s) /\
  listeners (snd (snd r)) = listeners (snd s).
Proof.
  open_sys s. simpl. intros -> ->. reduce.
  rewrite String.eqb_refl. reduce.
  destruct sf; reduce; rewrite py_getitem_nil; by repeat split.
Qed.

Lemma empty_delay_entry_raises_witness :
  let r := watched_entity_change "on" door_no_repeat in
  fst r = Raise IndexError /\
  _triggered (fst (snd r)) = true /\ _ack (fst (snd r)) = false /\
  _cancel (fst (snd r)) = None /\
  listeners (snd (snd r)) = ∅.
Proof.
  apply (empty_delay_entry_raises door_no_repeat); reflexivity.
Defined.

Lemma empty_delay_step (e : event) (s : sys) :
  _delay (fst s) = [] -> _cancel (fst s) = None ->
  _cancel (fst (step e s)) = None /\
  (_triggered (fst s) = true -> _triggered (fst (step e s)) = true).
Proof.
  open_sys s. unfold step. simpl. intros -> ->.
  destruct e as [to_state|d|k|[[| |] ctx]]; symex; try done.
  all: rewrite py_getitem_nil in *; discriminate.
Qed.

Lemma empty_delay_run (es : list event) (s : sys) :
  _delay (fst s) = [] -> _cancel (fst s) = None ->
  _cancel (fst (run es s)) = None /\
  (_triggered (fst s) = true -> _triggered (fst (run es s)) = true).
Proof.
  revert s. induction es as [|e es IH]; intros s Hd Hc; [done|].
  rewrite run_cons.
  destruct (empty_delay_step e s Hd Hc) as [Hc' Ht'].
  destruct (IH (step e s)) as [Hc'' Ht'']; [by rewrite step_delay|done|].
  split; [done|]. intros Ht. by apply Ht'', Ht'.
Qed.

Lemma run_delay (es : list event) (s : sys) :
  _delay (fst (run es s)) = _delay (fst s).
Proof. apply reachable_delay, run_reachable. Qed.

(** X5: an alert with an empty delay list that has become triggered can
    never leave the triggered state: every later update with another value
    raises [TypeError] (the cancel function is [None]) and changes nothing,
    and the alert stays triggered under all further events. *)
Theorem empty_delay_stuck_triggered (s0 : sys) (es es' : list event)
    (to_state : string) :
  fresh s0 ->
  _delay (fst s0) = [] ->
  _triggered (fst (run es s0)) = true ->
  String.eqb to_state (_alert_state (fst (run es s0))) = false ->
  watched_entity_change to_state (run es s0)
    = (Raise TypeError, run es s0) /\
  _triggered (fst (run es' (run es s0))) = true.
Proof.
  intros Hf Hd Ht Hne.
  assert (Hc0 : _cancel (fst s0) = None) by (by destruct Hf as (_&_&?&_)).
  destruct (empty_delay_run es s0 Hd Hc0) as [Hc _].
  split.
  - destruct (run es s0) as [a h].
    destruct a as [nm ast sf ca ts ds dl nd tr ak cn fl eid cx].
    simpl in *. subst tr cn. clear Hf Hd Hc0. symex. reflexivity.
  - apply empty_delay_run; [by rewrite run_delay|done|done].
Qed.

Lemma empty_delay_stuck_triggered_witness :
  let s := run [StateChanged "on"] door_no_repeat in
  _triggered (fst s) = true /\
  watched_entity_change "off" s = (Raise TypeError, s) /\
  _triggered (fst (run [StateChanged "off"; ServiceCall SERVICE_TURN_OFF;
                        StateChanged "off"] s)) = true.
Proof.
  intros s. split; [reflexivity|].
  apply (empty_delay_stuck_triggered door_no_repeat [StateChanged "on"]
           [StateChanged "off"; ServiceCall SERVICE_TURN_OFF;
            StateChanged "off"] "off").
  - by repeat split.
  - reflexivity.
  - reflexivity.
  - reflexivity.
Defined.

(** ** The triggered flag and the reported state *)

(** X6: with a non-empty delay list, in every state reached from a fresh
    alert through events that are each handled at a time to which every
    delay can be added within the range of [datetime], after an update
    that reports a value has been handled the alert is triggered exactly
    when the reported value equals the alert state. *)
Theorem triggered_tracks_watched_state (s0 s : sys) (to_state : string) :
  fresh s0 ->
  _delay (fst s0) <> [] ->
  reachable_in_range s0 s ->
  _triggered (fst (step (StateChanged to_state) s))
    = String.eqb to_state (_alert_state (fst s)).
Proof.
  intros Hf Hd Hr.
  destruct (armed_inv_reachable s0 s Hf Hd Hr) as [_ Hc].
  open_sys s. unfold step. simpl in Hc. symex; try reflexivity.
  all: exfalso; by apply Hc.
Qed.

Lemma triggered_tracks_watched_state_witness :
  let s := step (ServiceCall SERVICE_TURN_OFF)
             (step (StateChanged "on") door) in
  _triggered (fst (step (StateChanged "off") s)) = false /\
  _triggered (fst (step (StateChanged "on") s)) = true.
Proof.
  intros s.
  assert (Hf : fresh door) by (by repeat split).
  assert (Hd : _delay (fst door) <> []) by discriminate.
  assert (Hr : reachable_in_range door s).
  { repeat (apply in_range_step; [|reflexivity]). apply in_range_init. }
  split.
  - exact (triggered_tracks_watched_state door s "off" Hf Hd Hr).
  - exact (triggered_tracks_watched_state door s "on" Hf Hd Hr).
Defined.

(** X7: a matching update that reaches an alert that is not triggered
    always leaves it reporting [STATE_ON], also when it had been
    acknowledged while idle and also when scheduling raises. *)
Theorem entry_reports_on (s : sys) :
  _triggered (fst s) = false ->
  state (fst (step (StateChanged (_alert_state (fst s))) s)) = STATE_ON.
Proof.
  open_sys s. unfold step. simpl. intros ->. reduce.
  rewrite String.eqb_refl. symex; try reflexivity.
  all: rewrite String.eqb_refl in *; discriminate.
Qed.

Lemma entry_reports_on_witness :
  let s := step (ServiceCall SERVICE_TURN_OFF) door in
  _ack (fst s) = true /\
  state (fst (step (StateChanged "on") s)) = STATE_ON.
Proof.
  intros s. split; [reflexivity|].
  apply (entry_reports_on s). reflexivity.
Defined.

Lemma done_mark_step (e : event) (s : sys) :
  (_triggered (fst s) = false -> _execute_done_script (fst s) = false) ->
  _triggered (fst (step e s)) = false ->
  _execute_done_script (fst (step e s)) = false.
Proof.
  open_sys s. unfold step.
  destruct e as [to_state|d|k|[[| |] ctx]]; intros H; symex; auto.
  all: try discriminate.
Qed.

(** X8: in every state reached from a fresh alert, whatever its
    configuration, the mark [_execute_done_script] is only set while the
    alert is triggered: an idle alert never carries a pending done
    script. *)
Theorem done_mark_only_while_triggered (s0 s : sys) :
  fresh s0 ->
  reachable s0 s ->
  _triggered (fst s) = false ->
  _execute_done_script (fst s) = false.
Proof.
  intros Hf Hr. induction Hr as [|s e Hr IH].
  - intros _. by destruct Hf as (_ & _ & _ & ? & _).
  - by apply done_mark_step.
Qed.

Lemma done_mark_only_while_triggered_witness :
  let s := run [StateChanged "on"; StateChanged "off"] door in
  _execute_done_script (fst (step (StateChanged "on") door)) = true /\
  _execute_done_script (fst s) = false.
Proof.
  intros s. split; [reflexivity|].
  apply (done_mark_only_while_triggered door s).
  - by repeat split.
  - apply run_reachable.
  - reflexivity.
Defined.

(** ** The repeat schedule *)





(** X10: no event ever runs a script.  Along every run the scripts recorded
    as run are those recorded at the start: both places that call
    [_execute_script] drop the coroutine it returns. *)
Theorem no_event_runs_a_script (s0 s : sys) :
  reachable s0 s ->
  scripts_run (trace (snd s)) = scripts_run (trace (snd s0)).
Proof.
  induction 1 as [|s e _ IH]; [done|].
  by rewrite step_runs_no_script.
Qed.

Lemma no_event_runs_a_script_witness :
  let s := run [StateChanged "on"; TimePasses (Z.to_N (1 * minute));
                PointInTime 0%nat; StateChanged "off"] door in
  scripts_run (trace (snd s)) = [].
Proof.
  intros s. apply (no_event_runs_a_script door s). apply run_reachable.
Defined.

(** X11: no event changes what [__init__] configured: name, alert state,
    [skip_first], [can_ack], the two scripts, the delay list and the
    entity id are the same in every reachable state. *)
Theorem configuration_is_immutable (s0 s : sys) :
  reachable s0 s ->
  config_of (fst s) = config_of (fst s0).
Proof.
  induction 1 as [|s e _ IH]; [done|].
  by rewrite step_config.
Qed.

Lemma configuration_is_immutable_witness :
  let s := run [StateChanged "on"; ServiceCall SERVICE_TOGGLE;
                StateChanged "off"] door in
  config_of (fst s) = config_of (fst door).
Proof.
  intros s. apply (configuration_is_immutable door s). apply run_reachable.
Defined.

(** ** The control operations *)


(** ** The service handler over all entities *)

Lemma service_eq (call : service_call) (a : Alert) (h : Hass) :
  async_handle_alert_service call (a, h) =
    (Val tt,
     (served call a, log_effect (StateWritten (state (served call a))) h)).
Proof.
  destruct a as [nm ast sf ca ts ds dl nd tr ak cn fl eid cx].
  destruct h as [clk ls nh trc]. destruct call as [call ctx].
  unfold served, ack_after. destruct call; symex; reflexivity.
Qed.

Lemma serve_entity_eq (call : service_call) (alert_id : string)
    (l1 : list Alert) (a : Alert) (l2 : list Alert) (h : Hass) :
  serve_entity call alert_id (length l1) (l1 ++ a :: l2, h) =
    (Val tt, (l1 ++ served_if call alert_id a :: l2,
              written_if call alert_id h a)).
Proof.
  unfold serve_entity, served_if, written_if, bind, gets. simpl.
  rewrite list_lookup_middle by done.
  destruct (String.eqb (entity_id a) alert_id); simpl; [|reflexivity].
  unfold on_entity. simpl. rewrite list_lookup_middle by done.
  rewrite service_eq.
  replace (length l1) with (length l1 + 0)%nat at 1 by lia.
  by rewrite insert_app_r.
Qed.

Lemma inner_loop_eq (call : service_call) (alert_id : string)
    (l2 l1 : list Alert) (h : Hass) :
  for_each (serve_entity call alert_id) (seq (length l1) (length l2))
    (l1 ++ l2, h) =
    (Val tt, (l1 ++ (served_if call alert_id <$> l2),
              fold_left (written_if call alert_id) l2 h)).
Proof.
  revert l1 h. induction l2 as [|a l2 IH]; intros l1 h; [reflexivity|].
  simpl. unfold bind at 1. rewrite serve_entity_eq.
  specialize (IH (l1 ++ [served_if call alert_id a])
                (written_if call alert_id h a)).
  rewrite length_app in IH. simpl in IH.
  replace (length l1 + 1)%nat with (S (length l1)) in IH by lia.
  rewrite <- !app_assoc in IH. simpl in IH. exact IH.
Qed.

Lemma service_call_eq (call : service_call) (alert_ids : list string)
    (st : list Alert * Hass) :
  async_handle_alert_service_call call alert_ids st =
    (Val tt, service_call_result call alert_ids st).
Proof.
  unfold async_handle_alert_service_call, bind at 1, gets.
  revert st. induction alert_ids as [|alert_id ids IH]; intros [l h];
    [reflexivity|].
  simpl. unfold bind at 1.
  pose proof (inner_loop_eq call alert_id l [] h) as Hin. simpl in Hin.
  rewrite Hin.
  specialize (IH (served_if call alert_id <$> l,
                  fold_left (written_if call alert_id) l h)).
  simpl in IH. rewrite length_fmap in IH. exact IH.
Qed.

Lemma served_entity_id (call : service_call) (a : Alert) :
  entity_id (served call a) = entity_id a.
Proof. reflexivity. Qed.

Lemma served_if_other (call : service_call) (alert_id : string) (a : Alert) :
  entity_id a <> alert_id -> served_if call alert_id a = a.
Proof.
  intros Hne. unfold served_if.
  destruct (String.eqb_spec (entity_id a) alert_id); [done|reflexivity].
Qed.

Lemma written_host (call : service_call) (alert_id : string)
    (l : list Alert) (h : Hass) :
  listeners (fold_left (written_if call alert_id) l h) = listeners h /\
  clock (fold_left (written_if call alert_id) l h) = clock h /\
  next_handle (fold_left (written_if call alert_id) l h) = next_handle h.
Proof.
  revert h. induction l as [|a l IH]; intros h; [done|].
  simpl. destruct (IH (written_if call alert_id h a)) as (-> & -> & ->).
  unfold written_if. by destruct (String.eqb _ _).
Qed.

Lemma result_host (call : service_call) (alert_ids : list string)
    (st : list Alert * Hass) :
  length (fst (service_call_result call alert_ids st)) = length (fst st) /\
  listeners (snd (service_call_result call alert_ids st))
    = listeners (snd st) /\
  clock (snd (service_call_result call alert_ids st)) = clock (snd st).
Proof.
  revert st. induction alert_ids as [|alert_id ids IH]; intros st; [done|].
  simpl. destruct (IH (served_if call alert_id <$> fst st,
                       fold_left (written_if call alert_id) (fst st) (snd st)))
    as (-> & -> & ->). simpl.
  destruct (written_host call alert_id (fst st) (snd st)) as (-> & -> & _).
  by rewrite length_fmap.
Qed.

Lemma result_not_addressed (call : service_call) (alert_ids : list string)
    (st : list Alert * Hass) (i : nat) (a : Alert) :
  fst st !! i = Some a ->
  entity_id a ∉ alert_ids ->
  fst (service_call_result call alert_ids st) !! i = Some a.
Proof.
  revert st. induction alert_ids as [|alert_id ids IH]; intros st Hi Hn;
    [done|].
  apply not_elem_of_cons in Hn as [Hne Hn]. simpl.
  apply IH; [|done]. simpl.
  rewrite list_lookup_fmap, Hi. simpl. by rewrite served_if_other.
Qed.

Lemma result_unknown (call : service_call) (alert_ids : list string)
    (st : list Alert * Hass) :
  (forall a, a ∈ fst st -> entity_id a ∉ alert_ids) ->
  service_call_result call alert_ids st = st.
Proof.
  revert st. induction alert_ids as [|alert_id ids IH]; intros [l h] Hall;
    [done|].
  simpl in *.
  assert (Hl : served_if call alert_id <$> l = l /\
               fold_left (written_if call alert_id) l h = h).
  { clear IH. revert h. induction l as [|a l IHl]; intros h; [done|].
    assert (Hne : entity_id a <> alert_id).
    { intros Heq. apply (Hall a); [by left|]. rewrite Heq. by left. }
    destruct (IHl (fun b Hb => Hall b (list_elem_of_further _ _ _ Hb)) h)
      as [Hmap Hfold].
    rewrite fmap_cons, Hmap, served_if_other by done.
    split; [done|]. simpl. unfold written_if at 2.
    by destruct (String.eqb_spec (entity_id a) alert_id). }
  destruct Hl as [-> ->]. apply IH. intros a Ha.
  specialize (Hall a Ha). by apply not_elem_of_cons in Hall as [_ ?].
Qed.

Lemma result_addressed (call : service_call) (alert_ids : list string)
    (st : list Alert * Hass) (i : nat) (a : Alert) :
  NoDup alert_ids ->
  fst st !! i = Some a ->
  entity_id a ∈ alert_ids ->
  fst (service_call_result call alert_ids st) !! i = Some (served call a).
Proof.
  revert st a. induction alert_ids as [|alert_id ids IH];
    intros st a Hnd Hi Hin; [by apply elem_of_nil in Hin|].
  apply NoDup_cons in Hnd as [Hfresh Hnd]. simpl.
  destruct (String.eqb_spec (entity_id a) alert_id) as [Heq|Hne].
  - apply result_not_addressed.
    + simpl. rewrite list_lookup_fmap, Hi. simpl. unfold served_if.
      by rewrite <- Heq, String.eqb_refl.
    + by rewrite served_entity_id, Heq.
  - apply IH; [done| |].
    + simpl. rewrite list_lookup_fmap, Hi. simpl. by rewrite served_if_other.
    + apply elem_of_cons in Hin as [?|?]; done.
Qed.

(** X14: a service call never raises, keeps the number of entities, the
    listeners and the clock, and leaves every alert whose [entity_id] is
    not among the requested ids exactly as it was. *)
Theorem service_call_frame (call : service_call) (alert_ids : list string)
    (st : list Alert * Hass) :
  let r := async_handle_alert_service_call call alert_ids st in
  fst r = Val tt /\
  length (fst (snd r)) = length (fst st) /\
  listeners (snd (snd r)) = listeners (snd st) /\
  clock (snd (snd r)) = clock (snd st) /\
  (forall i a, fst st !! i = Some a -> entity_id a ∉ alert_ids ->
               fst (snd r) !! i = Some a).
Proof.
  simpl. rewrite service_call_eq. simpl.
  destruct (result_host call alert_ids st) as (Hlen & Hl & Hc).
  repeat split; try done.
  intros i a. apply result_not_addressed.
Qed.

Lemma service_call_frame_witness :
  let r := async_handle_alert_service_call SERVICE_TURN_OFF ["alert.door"]
             door_and_window in
  fst door_and_window !! 1%nat = fst (snd r) !! 1%nat /\
  _ack <$> fst (snd r) = [true; false].
Proof.
  intros r. split; [|reflexivity].
  destruct (service_call_frame SERVICE_TURN_OFF ["alert.door"]
              door_and_window) as (_ & _ & _ & _ & H).
  symmetry. eapply H; [reflexivity|].
  intros Hin. apply list_elem_of_singleton in Hin. discriminate Hin.
Defined.

(** X15: entity ids that belong to no alert are skipped silently: a
    service call none of whose ids names an entity returns normally and
    changes neither an alert nor the host. *)
Theorem service_call_unknown_ids (call : service_call)
    (alert_ids : list string) (st : list Alert * Hass) :
  (forall a, a ∈ fst st -> entity_id a ∉ alert_ids) ->
  async_handle_alert_service_call call alert_ids st = (Val tt, st).
Proof. intros H. by rewrite service_call_eq, result_unknown. Qed.

Lemma service_call_unknown_ids_witness :
  async_handle_alert_service_call SERVICE_TOGGLE
    ["alert.garage"; "light.door"] door_and_window
  = (Val tt, door_and_window).
Proof.
  apply (service_call_unknown_ids SERVICE_TOGGLE
           ["alert.garage"; "light.door"] door_and_window).
  intros a Ha Hin.
  assert (Hid : entity_id a = "alert.door" \/ entity_id a = "alert.window").
  { simpl in Ha. apply elem_of_cons in Ha as [->|Ha]; [by left|].
    apply list_elem_of_singleton in Ha as ->. by right. }
  apply elem_of_cons in Hin as [Hin|Hin];
    [|apply list_elem_of_singleton in Hin];
    destruct Hid as [Hid|Hid]; rewrite Hid in Hin; discriminate Hin.
Defined.

(** X16: when the requested ids are pairwise distinct, every alert whose
    [entity_id] is among them is served exactly once: the context of the
    call is stored in [_context], and [_ack] is false after turn_on, true
    after turn_off and negated after toggle; the other attributes are
    unchanged. *)
Theorem service_call_serves_addressed (call : service_call)
    (alert_ids : list string) (st : list Alert * Hass) (i : nat) (a : Alert) :
  NoDup alert_ids ->
  fst st !! i = Some a ->
  entity_id a ∈ alert_ids ->
  fst (snd (async_handle_alert_service_call call alert_ids st)) !! i
    = Some (set_ack (ack_after (service call) a)
              (async_set_context (context call) a)).
Proof.
  intros Hnd Hi Hin. rewrite service_call_eq. simpl.
  by apply result_addressed.
Qed.

Lemma service_call_serves_addressed_witness :
  fst (snd (async_handle_alert_service_call
              (mkServiceCall SERVICE_TOGGLE 7%nat)
              ["alert.window"; "alert.door"] door_and_window)) !! 0%nat
  = Some (set_ack true (async_set_context 7%nat (fst door))).
Proof.
  apply (service_call_serves_addressed (mkServiceCall SERVICE_TOGGLE 7%nat)
           ["alert.window"; "alert.door"] door_and_window 0%nat (fst door)).
  - apply NoDup_cons. split; [|apply NoDup_singleton].
    intros Hin. apply list_elem_of_singleton in Hin. discriminate Hin.
  - reflexivity.
  - right. by left.
Defined.

(** ** Re-entering the triggered state *)

(** X17: every entry into the triggered state starts the schedule afresh.
    In a reachable state where the alert is not triggered, a matching
    update whose due time, the current time plus the first delay, lies in
    the range of [datetime] returns normally and leaves exactly one
    listener, due at that time, whatever the cursor had reached during an
    earlier alert; the cursor then is [min 1 (len - 1)]. *)
Theorem entry_restarts_schedule (s0 s : sys) (d0 : timedelta)
    (rest : list timedelta) :
  fresh s0 ->
  _delay (fst s0) = d0 :: rest ->
  reachable s0 s ->
  _triggered (fst s) = false ->
  0 <= clock (snd s) + d0 < datetime_max ->
  let r := watched_entity_change (_alert_state (fst s)) s in
  fst r = Val tt /\
  listeners (snd (snd r)) = {[next_handle (snd s) := clock (snd s) + d0]} /\
  _cancel (fst (snd r)) = Some (next_handle (snd s)) /\
  _next_delay (fst (snd r)) = Z.min 1 (Z.of_nat (length rest)).
Proof.
  intros Hf Hd Hr Ht Hrange.
  assert (Hl : listeners (snd s) = ∅).
  { apply timer_inv_idle; [|done].
    apply (reachable_ind_inv timer_inv s0 s); [by apply fresh_timer_inv| |done].
    intros. by apply timer_inv_step. }
  rewrite <- (reachable_delay s0 s Hr) in Hd.
  open_sys s. simpl in *. subst tr dl ls. clear Hr Hf.
  assert (Hg : py_getitem (d0 :: rest) 0 = Val d0) by reflexivity.
  assert (Hadd : datetime_add clk d0 = Val (clk + d0)).
  { unfold datetime_add.
    destruct (Z.leb_spec 0 (clk + d0)); [|lia].
    destruct (Z.ltb_spec (clk + d0) datetime_max); [reflexivity|lia]. }
  assert (He : String.eqb ast ast = true) by apply String.eqb_refl.
  assert (Hlen : Z.of_nat (S (length rest)) - 1 = Z.of_nat (length rest))
    by lia.
  clear Hrange. symex; rewrite insert_empty; repeat split;
    simpl length; by rewrite Hlen.
Qed.

Lemma entry_restarts_schedule_witness :
  let s := run [StateChanged "on"; TimePasses (Z.to_N (1 * minute));
                PointInTime 0%nat; TimePasses (Z.to_N (2 * minute));
                StateChanged "off"] door in
  let r := watched_entity_change "on" s in
  _next_delay (fst s) = 1 /\ clock (snd s) = 3 * minute /\
  fst r = Val tt /\
  listeners (snd (snd r)) = {[2%nat := 3 * minute + 1 * minute]} /\
  _cancel (fst (snd r)) = Some 2%nat /\
  _next_delay (fst (snd r)) = Z.min 1 1.
Proof.
  intros s r. split; [reflexivity|]. split; [reflexivity|].
  apply (entry_restarts_schedule door s (1 * minute) [5 * minute]).
  - by repeat split.
  - reflexivity.
  - apply run_reachable.
  - reflexivity.
  - vm_compute. split; [discriminate|reflexivity].
Defined.

(** ** Times outside the range of [datetime] *)

(** X18: when the current time plus the first delay leaves the range of
    [datetime], a matching update that reaches an alert that is not
    triggered raises [OverflowError] out of [_schedule_trigger]; the alert
    is left triggered and unacknowledged with the cursor at 0, and its
    cancel function and the listeners are as before: nothing is
    scheduled. *)
Theorem overflow_entry_raises (s : sys) (d0 : timedelta)
    (rest : list timedelta) :
  _delay (fst s) = d0 :: rest ->
  _triggered (fst s) = false ->
  ~ (0 <= clock (snd s) + d0 < datetime_max) ->
  let r := watched_entity_change (_alert_state (fst s)) s in
  fst r = Raise OverflowError /\
  _triggered (fst (snd r)) = true /\ _ack (fst (snd r)) = false /\
  _next_delay (fst (snd r)) = 0 /\
  _cancel (fst (snd r)) = _cancel (fst s) /\
  listeners (snd (snd r)) = listeners (snd s).
Proof.
  open_sys s. simpl. intros -> -> Hout.
  assert (Hg : py_getitem (d0 :: rest) 0 = Val d0) by reflexivity.
  assert (Hadd : datetime_add clk d0 = Raise OverflowError).
  { unfold datetime_add.
    destruct (Z.leb_spec 0 (clk + d0)); [|reflexivity].
    destruct (Z.ltb_spec (clk + d0) datetime_max); [lia|reflexivity]. }
  assert (He : String.eqb ast ast = true) by apply String.eqb_refl.
  clear Hout. symex; by repeat split.
Qed.

Lemma overflow_entry_raises_witness :
  let r := watched_entity_change "on" door_far in
  fst r = Raise OverflowError /\
  _triggered (fst (snd r)) = true /\ _ack (fst (snd r)) = false /\
  _next_delay (fst (snd r)) = 0 /\
  _cancel (fst (snd r)) = None /\
  listeners (snd (snd r)) = ∅.
Proof.
  apply (overflow_entry_raises door_far (5000000000 * minute) []).
  - reflexivity.
  - reflexivity.
  - vm_compute. intros [_ H]. discriminate H.
Defined.

(** ** Constructing an alert *)

Lemma comprehension_raises {St A B} (f : A -> res B) (l : list A) (h : St)
    (e : exn) :
  fst (comprehension f l h) = Raise e -> Exists (fun x => f x = Raise e) l.
Proof.
  induction l as [|x l IH]; [discriminate|].
  simpl. unfold bind, eval. destruct (f x) as [y|e'] eqn:Hx.
  - destruct (comprehension f l h) as [[ys|e''] h']; simpl in *;
      [discriminate|].
    intros [= ->]. right. by apply IH.
  - simpl. intros [= ->]. by left.
Qed.

Lemma comprehension_returns {St A B} (f : A -> res B) (l : list A) (h : St) :
  Forall (fun x => exists y, f x = Val y) l ->
  exists ys, comprehension f l h = (Val ys, h).
Proof.
  induction 1 as [|x l [y Hy] _ [ys IH]]; [by exists []|].
  exists (y :: ys). simpl. unfold bind, eval. by rewrite Hy, IH.
Qed.

(** X19: [Alert.__init__] can only fail on line 161.  If it raises, then
    [timedelta(minutes=val)] raised that exception for an entry of
    [repeat], and the host is as before: nothing was subscribed.  If every
    entry converts, it returns an alert that reports [STATE_IDLE], is
    hidden and has the entity id "alert." followed by the object id, and
    the host records one subscription to the watched entity. *)
Theorem init_fails_only_on_repeat
    (object_id name watched alert_state : string) (repeat : list pyfloat)
    (skip_first can_ack : bool) (triggered_action done_action : option nat)
    (h : Hass) :
  let r := Alert__init__ object_id name watched alert_state repeat
             skip_first can_ack triggered_action done_action h in
  (forall e, fst r = Raise e ->
     snd r = h /\ Exists (fun v => timedelta_minutes v = Raise e) repeat) /\
  (Forall (fun v => exists d, timedelta_minutes v = Val d) repeat ->
     exists a, r = (Val a, log_effect (StateChangeTracked watched) h) /\
               state a = STATE_IDLE /\ hidden a = true /\
               entity_id a = "alert." +:+ object_id).
Proof.
  simpl. unfold Alert__init__, bind. split.
  - intros e.
    pose proof (comprehension_host timedelta_minutes repeat h) as Hh.
    pose proof (comprehension_raises timedelta_minutes repeat h e) as Hr.
    destruct (comprehension timedelta_minutes repeat h) as [[dl|e'] h1];
      simpl in *; [discriminate|].
    intros [= ->]. split; [done|]. by apply Hr.
  - intros Hall.
    destruct (comprehension_returns timedelta_minutes repeat h Hall)
      as [dl ->].
    eexists. split; [reflexivity|]. simpl. repeat split.
    by destruct can_ack.
Qed.

Lemma init_fails_only_on_repeat_witness :
  let r := Alert__init__ "door" "Door open" "binary_sensor.door" "on"
             [whole_minutes 1; NaN; Infinity false] false true None None
             host0 in
  fst r = Raise ValueError /\ snd r = host0 /\
  Exists (fun v => timedelta_minutes v = Raise ValueError)
    [whole_minutes 1; NaN; Infinity false].
Proof.
  intros r. split; [reflexivity|].
  destruct (init_fails_only_on_repeat "door" "Door open"
              "binary_sensor.door" "on"
              [whole_minutes 1; NaN; Infinity false] false true None None
              host0) as [H _].
  apply (H ValueError). reflexivity.
Defined.

(** Entries of [repeat] that the schema accepts and the constructor
    rejects: 2e12 minutes are more than 999999999 days. *)
Lemma timedelta_minutes_too_large :
  timedelta_minutes (whole_minutes 2000000000000) = Raise OverflowError /\
  timedelta_minutes (Infinity true) = Raise OverflowError /\
  timedelta_minutes NaN = Raise ValueError /\
  timedelta_minutes (whole_minutes 5000000000) = Val (5000000000 * minute).
Proof. vm_compute. repeat split; reflexivity. Qed.
